(** * aioarangodb: request normalisation, the Pregel API group and the
      default HTTP client

    A shallow embedding of [request.py], [pregel.py], [http.py] and
    [typings.py].  Python dictionaries are insertion-ordered mappings with
    unique keys; they are embedded as association lists updated in place by
    [dict_set].  Dictionaries that are shared between the caller and the
    callee live in an explicit object store ([heap]). *)

From Stdlib Require Import ZArith String Ascii List Lia Bool.
From stdpp Require Import base option list strings pretty gmap.

Local Open Scope string_scope.
Local Open Scope Z_scope.
Local Open Scope list_scope.

(* ===================================================================== *)
(** ** Python dictionaries *)
(* ===================================================================== *)

Module PyDict.

(** [dict V]: the items of a [Dict[str, V]] in iteration order. *)
Definition dict (V : Type) : Type := list (string * V).

Definition dict_keys {V} (d : dict V) : list string := fst <$> d.

(** [d[k]] as a lookup ([None] when the key is absent). *)
Fixpoint dict_get {V} (d : dict V) (k : string) : option V :=
  match d with
  | [] => None
  | (k', v') :: d' => if String.eqb k' k then Some v' else dict_get d' k
  end.

(** [d[k] = v]: an existing key keeps its position and gets the new
    value, a new key is appended. *)
Fixpoint dict_set {V} (d : dict V) (k : string) (v : V) : dict V :=
  match d with
  | [] => [(k, v)]
  | (k', v') :: d' =>
      if String.eqb k' k then (k', v) :: d' else (k', v') :: dict_set d' k v
  end.

(** A list of items is a dictionary when no key occurs twice. *)
Definition is_dict {V} (d : dict V) : Prop := NoDup (dict_keys d).

(** Truth value of a dictionary: [bool(d)] is [len(d) != 0]. *)
Definition dict_truthy {V} (d : dict V) : bool :=
  match d with [] => false | _ :: _ => true end.

End PyDict.
Export PyDict.

(* ===================================================================== *)
(** ** typings.py *)
(* ===================================================================== *)

(** [Union[bool, int, str]], the values of [Params]. *)
Inductive param_value : Type :=
| PBool (b : bool)
| PInt (z : Z)
| PStr (s : string).

(** [Params = Dict[str, Union[bool, int, str]]] *)
Definition Params : Type := dict param_value.
(** [Headers = Dict[str, str]] *)
Definition Headers : Type := dict string.

(** [Fields = Union[str, Sequence[str]]] *)
Inductive Fields : Type :=
| FieldName (s : string)
| FieldNames (l : list string).

(* ===================================================================== *)
(** ** Python builtins used by request.py *)
(* ===================================================================== *)

(** [str.lower] on header names.  Header names are ASCII, so a string is a
    sequence of 8-bit characters and only [A-Z] have a lower-case form. *)
Definition ascii_lower (c : ascii) : ascii :=
  let n := N_of_ascii c in
  if (65 <=? n)%N && (n <=? 90)%N then ascii_of_N (n + 32) else c.

Fixpoint lower (s : string) : string :=
  match s with
  | EmptyString => EmptyString
  | String c s' => String (ascii_lower c) (lower s')
  end.

(** [int(b)] for a [bool]. *)
Definition int_of_bool (b : bool) : Z := if b then 1 else 0.

(** [str(v)]: decimal digits with a leading minus sign for an [int], the
    string itself for a [str], ["True"]/["False"] for a [bool]. *)
Definition py_str (v : param_value) : string :=
  match v with
  | PBool true => "True"
  | PBool false => "False"
  | PInt z => pretty z
  | PStr s => s
  end.

(* ===================================================================== *)
(** ** request.py *)
(* ===================================================================== *)

Definition default_headers : Headers :=
  [("charset", "utf-8"); ("content-type", "application/json")].

(** The body of the [for] loop of [normalize_headers] on one item of
    [headers.items()]. *)
Definition header_step (normalized_headers : Headers) (item : string * string)
  : Headers :=
  let '(key, value) := item in
  dict_set normalized_headers (lower key) value.

Definition normalize_headers (headers : option Headers) : Headers :=
  let normalized_headers := default_headers in
  match headers with
  | Some h => fold_left header_step h normalized_headers
  | None => normalized_headers
  end.

(** The body of the [for] loop of [normalize_params] on one item of
    [params.items()]; [normalize_param] is what it does to the value. *)
Definition normalize_param (value : param_value) : string :=
  let value :=
    match value with
    | PBool b => PInt (int_of_bool b)
    | _ => value
    end in
  py_str value.

Definition param_step (normalized_params : dict string)
    (item : string * param_value) : dict string :=
  let '(key, value) := item in
  dict_set normalized_params key (normalize_param value).

Definition normalize_params (params : option Params) : dict string :=
  let normalized_params : dict string := [] in
  match params with
  | Some p => fold_left param_step p normalized_params
  | None => normalized_params
  end.

(* ===================================================================== *)
(** ** Python objects and the object store *)
(* ===================================================================== *)

(** A mutable dictionary is an object: two names may refer to the same
    dictionary, and a write through one is seen through the other.  The
    store maps the address of every dictionary to its current items. *)
Definition loc : Type := nat.

(** [Any], as far as the Pregel wrapper handles it: scalars are immutable
    values, a dictionary is a reference into the store. *)
Inductive value : Type :=
| VNone
| VBool (b : bool)
| VInt (z : Z)
| VStr (s : string)
| VDict (l : loc).

Abbreviation heap := (gmap loc (dict value)).

(** Computations that read and update the store. *)
Definition St (A : Type) : Type := heap -> A * heap.

#[global] Instance St_ret : MRet St := fun A (a : A) h => (a, h).

#[global] Instance St_bind : MBind St :=
  fun A B (k : A -> St B) (m : St A) h => let '(a, h') := m h in k a h'.

(** A dictionary display [{...}] allocates a new object. *)
Definition new_dict (items : dict value) : St loc :=
  fun h => let l := fresh (dom h) in (l, <[l := items]> h).

(** [target[k] = v] through a reference.  A reference held by a running
    program always points into the store; at an address outside it the
    write changes nothing. *)
Definition setitem (target : loc) (k : string) (v : value) : St unit :=
  fun h =>
    match h !! target with
    | Some d => (tt, <[target := dict_set d k v]> h)
    | None => (tt, h)
    end.

(** [if target:] for a reference to a dictionary. *)
Definition truthy (target : loc) : St bool :=
  fun h =>
    match h !! target with
    | Some d => (dict_truthy d, h)
    | None => (false, h)
    end.

(** [if x is not None: body(x)] *)
Definition if_not_none {A} (x : option A) (body : A -> St unit) : St unit :=
  match x with
  | Some a => body a
  | None => mret tt
  end.

(** The JSON document a value denotes in a given store: the traversal of
    the object graph that serialising the value performs.  [fuel] bounds
    the nesting depth. *)
#[warnings="-register-all"] Inductive json : Type :=
| JNull
| JBool (b : bool)
| JInt (z : Z)
| JStr (s : string)
| JObject (members : list (string * json)).

Fixpoint snapshot (fuel : nat) (h : heap) (v : value) : option json :=
  match v with
  | VNone => Some JNull
  | VBool b => Some (JBool b)
  | VInt z => Some (JInt z)
  | VStr s => Some (JStr s)
  | VDict l =>
      match fuel with
      | O => None
      | S n =>
          match h !! l with
          | Some d =>
              JObject <$>
                mapM (fun kv : string * value =>
                        pair (fst kv) <$> snapshot n h (snd kv)) d
          | None => None
          end
      end
  end.

(* ===================================================================== *)
(** ** request.py: the Request class *)
(* ===================================================================== *)

Record Request : Type := mkRequest {
  req_method : string;
  req_endpoint : string;
  req_headers : Headers;
  req_params : dict string;
  req_data : value;
  req_read : option Fields;
  req_write : option Fields;
  req_exclusive : option Fields;
  req_deserialize : bool
}.

(** [Request.__init__] *)
Definition Request_init (method endpoint : string)
    (headers : option Headers) (params : option Params) (data : value)
    (read write exclusive : option Fields) (deserialize : bool) : Request :=
  {| req_method := method;
     req_endpoint := endpoint;
     req_headers := normalize_headers headers;
     req_params := normalize_params params;
     req_data := data;
     req_read := read;
     req_write := write;
     req_exclusive := exclusive;
     req_deserialize := deserialize |}.

(** [Request(method=..., endpoint=..., data=...)] with every other argument
    at its default. *)
Definition Request_of (method endpoint : string) (data : value) : Request :=
  Request_init method endpoint None None data None None None true.

(* ===================================================================== *)
(** ** Response and the Pregel exceptions *)
(* ===================================================================== *)

(** The attributes [DefaultHTTPClient.send_request] passes to [Response]. *)
Record Response : Type := mkResponse {
  resp_method : string;
  resp_url : string;
  resp_headers : Headers;
  resp_status_code : Z;
  resp_status_text : string;
  resp_raw_body : string
}.

(** Modelled from the spec: the success predicate of [Response], whose
    class (response.py) is not among the sources.  The spec gives a
    Response "a success predicate (2xx range)". *)
Definition is_success (resp : Response) : bool :=
  (200 <=? resp_status_code resp) && (resp_status_code resp <? 300).

(** Exceptions.  The three Pregel errors are raised by the response
    handlers of pregel.py, each constructed from the response and the
    request, in this order.  [BuiltinError] is a failure of a builtin
    conversion, [AttributeError] a failed [getattr], [ClientError] whatever
    the HTTP client library raises for a connection failure or a timeout.
    [TransportError] is the failure kind the specification names for the
    transport; no line of http.py constructs it. *)
Inductive exn : Type :=
| PregelJobGetError (resp : Response) (request : Request)
| PregelJobCreateError (resp : Response) (request : Request)
| PregelJobDeleteError (resp : Response) (request : Request)
| BuiltinError (name : string)
| AttributeError (name : string)
| ClientError (reason : string)
| TransportError (attempts : nat).

(** Outcome of calling a response handler. *)
Inductive outcome (T : Type) : Type :=
| Return (v : T)
| Raise (e : exn).
Arguments Return {T} v.
Arguments Raise {T} e.

(* ===================================================================== *)
(** ** pregel.py *)
(* ===================================================================== *)

Section Pregel.

(** [resp.body], the deserialised body of a response; [format_pregel_job_data]
    of formatter.py; the builtin [int] applied to a body.  None of the
    three is defined in the sources at hand. *)
Variable resp_body : Response -> value.
Variable format_pregel_job_data : value -> value.
Variable py_int : value -> outcome Z.

(** [Pregel.job]: the request and the response handler handed to
    [_execute]. *)
Definition job (job_id : Z) : Request * (Response -> outcome value) :=
  let request :=
    Request_of "get" ("/_api/control_pregel/" ++ pretty job_id)%string VNone in
  let response_handler (resp : Response) : outcome value :=
    if is_success resp
    then Return (format_pregel_job_data (resp_body resp))
    else Raise (PregelJobGetError resp request) in
  (request, response_handler).

(** [Pregel.create_job].  [store] is annotated [bool] and tested against
    [None], so it is an optional boolean here; [algorithm_params] is a
    reference to the caller's dictionary, or [None]. *)
Definition create_job (graph algorithm : string)
    (store : option bool) (max_gss thread_count : option Z)
    (async_mode : option bool) (result_field : option string)
    (algorithm_params : option loc)
  : St (Request * (Response -> outcome Z)) :=
  data ← new_dict [("algorithm", VStr algorithm); ("graphName", VStr graph)];
  algorithm_params ←
    match algorithm_params with
    | None => new_dict []
    | Some l => mret l
    end;
  if_not_none store
    (fun store => setitem algorithm_params "store" (VBool store));;
  if_not_none max_gss
    (fun max_gss => setitem algorithm_params "maxGSS" (VInt max_gss));;
  if_not_none thread_count
    (fun thread_count =>
       setitem algorithm_params "parallelism" (VInt thread_count));;
  if_not_none async_mode
    (fun async_mode => setitem algorithm_params "async" (VBool async_mode));;
  if_not_none result_field
    (fun result_field =>
       setitem algorithm_params "resultField" (VStr result_field));;
  nonempty ← truthy algorithm_params;
  (if nonempty : bool
   then setitem data "params" (VDict algorithm_params)
   else mret tt);;
  let request := Request_of "post" "/_api/control_pregel" (VDict data) in
  let response_handler (resp : Response) : outcome Z :=
    if is_success resp
    then py_int (resp_body resp)
    else Raise (PregelJobCreateError resp request) in
  mret (request, response_handler).

(** [Pregel.delete_job] *)
Definition delete_job (job_id : Z) : Request * (Response -> outcome bool) :=
  let request :=
    Request_of "delete" ("/_api/control_pregel/" ++ pretty job_id)%string VNone in
  let response_handler (resp : Response) : outcome bool :=
    if is_success resp
    then Return true
    else Raise (PregelJobDeleteError resp request) in
  (request, response_handler).

End Pregel.

(** [if o is not None: d[k] = o] on the items of a dictionary. *)
Definition set_opt (d : dict value) (k : string) (o : option value)
  : dict value :=
  match o with
  | Some v => dict_set d k v
  | None => d
  end.

(** The items of the options dictionary after the five conditional writes
    of [create_job], from its items before them. *)
Definition merge_options (d : dict value) (store : option bool)
    (max_gss thread_count : option Z) (async_mode : option bool)
    (result_field : option string) : dict value :=
  let d := set_opt d "store" (VBool <$> store) in
  let d := set_opt d "maxGSS" (VInt <$> max_gss) in
  let d := set_opt d "parallelism" (VInt <$> thread_count) in
  let d := set_opt d "async" (VBool <$> async_mode) in
  set_opt d "resultField" (VStr <$> result_field).

(* ===================================================================== *)
(** ** http.py *)
(* ===================================================================== *)

(** What the HTTP client library hands back for one call: the reply
    ([response.headers], [response.status], [response.reason],
    [await response.text()]). *)
Record ClientResponse : Type := mkClientResponse {
  cr_headers : Headers;
  cr_status : Z;
  cr_reason : string;
  cr_text : string
}.

(** [aiohttp.BasicAuth(login, password)] *)
Record BasicAuth : Type := mkBasicAuth {
  auth_login : string;
  auth_password : string
}.

(** [Union[str, MultipartWriter, None]] without the [None]. *)
Inductive payload : Type :=
| PayloadStr (s : string)
| PayloadMultipart (parts : list string).

(** Keyword arguments of a call are a dictionary from names to values. *)
Inductive arg : Type :=
| ArgStr (s : string)
| ArgParams (p : option (dict string))
| ArgData (d : option payload)
| ArgHeaders (h : option Headers)
| ArgAuth (a : option BasicAuth).

Abbreviation kwargs := (dict arg).

(** Result of calling a method of the session object. *)
Inductive session_result : Type :=
| Reply (response : ClientResponse)
| SessionRaise (e : exn).

(** A session object as [send_request] uses it: [getattr(session, method)]
    yields a callable taking keyword arguments, or fails. *)
Record ClientSession : Type := mkClientSession {
  session_getattr : string -> option (kwargs -> session_result)
}.

(** [ExponentialRetry(attempts=..., statuses=...)] *)
Record RetryOptions : Type := mkRetryOptions {
  attempts : nat;
  statuses : list Z
}.

Definition ExponentialRetry (attempts : nat) (statuses : list Z) : RetryOptions :=
  {| attempts := attempts; statuses := statuses |}.

(** [RetryClient(raise_for_status=..., retry_options=...)] *)
Record RetryClient : Type := mkRetryClient {
  raise_for_status : bool;
  retry_options : RetryOptions
}.

(** Class attributes of [DefaultHTTPClient]. *)
Definition REQUEST_TIMEOUT : Z := 60.
Definition RETRY_ATTEMPTS : Z := 3.
Definition BACKOFF_FACTOR : Z := 1.

(** [DefaultHTTPClient.create_session] *)
Definition create_session (host : string) : RetryClient :=
  let retry_options := ExponentialRetry 3 [429; 500; 502; 503; 504] in
  {| raise_for_status := false; retry_options := retry_options |}.

(** The keyword arguments of the call [request(url=url, params=params,
    data=data, headers=headers, auth=auth)] in [send_request]. *)
Definition request_kwargs (url : string) (headers : option Headers)
    (params : option (dict string)) (data : option payload)
    (auth : option BasicAuth) : kwargs :=
  [("url", ArgStr url); ("params", ArgParams params); ("data", ArgData data);
   ("headers", ArgHeaders headers); ("auth", ArgAuth auth)].

(** [DefaultHTTPClient.send_request] *)
Definition send_request (session : ClientSession) (method url : string)
    (headers : option Headers) (params : option (dict string))
    (data : option payload) (auth : option (string * string))
  : outcome Response :=
  match session_getattr session method with
  | None => Raise (AttributeError method)
  | Some request =>
      let auth :=
        match auth with
        | Some a => Some (mkBasicAuth (fst a) (snd a))
        | None => None
        end in
      match request (request_kwargs url headers params data auth) with
      | SessionRaise e => Raise e
      | Reply response =>
          Return {| resp_method := method;
                    resp_url := url;
                    resp_headers := cr_headers response;
                    resp_status_code := cr_status response;
                    resp_status_text := cr_reason response;
                    resp_raw_body := cr_text response |}
      end
  end.

(* --------------------------------------------------------------------- *)
(** *** The retrying session *)
(* --------------------------------------------------------------------- *)

(** What happens on the wire at one physical attempt: a reply, or a
    connection failure or timeout. *)
Inductive attempt_outcome : Type :=
| Replied (response : ClientResponse)
| Failed (reason : string).

(** The status code of an attempt, when it got a reply. *)
Definition attempt_status (a : attempt_outcome) : option Z :=
  match a with
  | Replied response => Some (cr_status response)
  | Failed _ => None
  end.

(** The network as one call sees it: the outcome of its n-th physical
    attempt, counted from 0. *)
Definition wire : Type := nat -> attempt_outcome.

(** Result of a retried call with its bookkeeping: the outcome of the last
    attempt, the number of attempts made and the waits between them. *)
Record retry_run : Type := mkRetryRun {
  final : attempt_outcome;
  attempts_made : nat;
  waits : list N
}.

Section RetryLoop.

(** The first wait and the growth factor of the exponential schedule (the
    library's defaults; [create_session] does not set them). *)
Variable start_timeout : N.
Variable factor : N.

(** Modelled from the spec: the wait of [ExponentialRetry] after a failed
    attempt, the retry package not being among the sources.  The spec
    says "exponential backoff". *)
Definition get_timeout (attempt : nat) : N :=
  (start_timeout * factor ^ N.of_nat attempt)%N.

(** Modelled from the spec: the retry decision of the transport, the retry
    package not being among the sources.  The spec says: "retry on response
    status in {429, 500, 502, 503, 504}", "retry is purely a function of
    status code and connection error". *)
Definition should_retry (o : RetryOptions) (a : attempt_outcome) : bool :=
  match a with
  | Replied response => bool_decide (cr_status response ∈ statuses o)
  | Failed _ => true
  end.

(** Modelled from the spec: the loop of the retrying session ([RetryClient]
    of the retry package, not among the sources): attempt, and while the
    outcome asks for a retry and the attempt budget allows one, wait and
    attempt again.  [attempt] counts the attempts already made. *)
Fixpoint retry_loop (o : RetryOptions) (w : wire) (retries_left attempt : nat)
  : retry_run :=
  let a := w attempt in
  match retries_left with
  | S n =>
      if should_retry o a
      then
        let r := retry_loop o w n (S attempt) in
        {| final := final r;
           attempts_made := attempts_made r;
           waits := get_timeout attempt :: waits r |}
      else {| final := a; attempts_made := S attempt; waits := [] |}
  | O => {| final := a; attempts_made := S attempt; waits := [] |}
  end.

Definition run_with_retries (c : RetryClient) (w : wire) : retry_run :=
  retry_loop (retry_options c) w (Nat.pred (attempts (retry_options c))) 0.

(** Modelled from the spec: what the retrying session returns to its
    caller.  With [raise_for_status] off a reply of any status is handed
    back; a connection failure on the last attempt is raised as the
    library's own exception. *)
Definition retry_result (c : RetryClient) (r : retry_run) : session_result :=
  match final r with
  | Replied response =>
      if raise_for_status c && (400 <=? cr_status response)
      then SessionRaise (ClientError (cr_reason response))
      else Reply response
  | Failed reason => SessionRaise (ClientError reason)
  end.

(** The HTTP verbs a session offers as methods. *)
Definition http_verbs : list string :=
  ["get"; "options"; "head"; "post"; "put"; "patch"; "delete"].

(** The session object [create_session] returns, talking to a given
    network.  Only the verb methods are attributes. *)
Definition RetryClient_session (c : RetryClient) (w : wire) : ClientSession :=
  {| session_getattr := fun name =>
       if bool_decide (name ∈ http_verbs)
       then Some (fun _ : kwargs => retry_result c (run_with_retries c w))
       else None |}.

End RetryLoop.

(* ===================================================================== *)
(** * Properties *)
(* ===================================================================== *)

(** ** Dictionaries *)

Section DictFacts.

Context {V : Type}.
Implicit Types (d : dict V) (k : string) (v : V).

Lemma dict_get_set d k v k' :
  dict_get (dict_set d k v) k' =
  if String.eqb k k' then Some v else dict_get d k'.
Proof.
  induction d as [|[k0 v0] d IH]; simpl.
  - reflexivity.
  - destruct (String.eqb_spec k0 k) as [->|Hne]; simpl.
    + destruct (String.eqb k k'); reflexivity.
    + rewrite IH. destruct (String.eqb_spec k0 k') as [->|]; [|reflexivity].
      destruct (String.eqb_spec k k') as [->|]; [congruence|reflexivity].
Qed.

Lemma dict_get_set_eq d k v : dict_get (dict_set d k v) k = Some v.
Proof. rewrite dict_get_set, String.eqb_refl. reflexivity. Qed.

Lemma dict_get_set_ne d k v k' :
  k <> k' -> dict_get (dict_set d k v) k' = dict_get d k'.
Proof.
  intros Hne. rewrite dict_get_set.
  destruct (String.eqb_spec k k'); [contradiction|reflexivity].
Qed.

Lemma dict_keys_cons k v d : dict_keys ((k, v) :: d) = k :: dict_keys d.
Proof. reflexivity. Qed.

Lemma dict_get_None d k : k ∉ dict_keys d -> dict_get d k = None.
Proof.
  induction d as [|[k0 v0] d IH]; [reflexivity|].
  rewrite dict_keys_cons. intros [Hne Hk]%not_elem_of_cons. cbn [dict_get].
  destruct (String.eqb_spec k0 k); [congruence|]. apply IH, Hk.
Qed.

Lemma dict_get_Some_key d k v : dict_get d k = Some v -> (k, v) ∈ d.
Proof.
  induction d as [|[k0 v0] d IH]; cbn [dict_get]; [discriminate|].
  destruct (String.eqb_spec k0 k) as [->|].
  - intros [= ->]. left.
  - intros H. right. apply IH, H.
Qed.

Lemma dict_get_elem_of d k v :
  NoDup (dict_keys d) -> (k, v) ∈ d -> dict_get d k = Some v.
Proof.
  induction d as [|[k0 v0] d IH]; intros Hnd Hin.
  - inversion Hin.
  - rewrite dict_keys_cons in Hnd. apply NoDup_cons in Hnd as [Hk0 Hnd].
    cbn [dict_get].
    apply elem_of_cons in Hin as [[= -> ->]|Hin].
    + rewrite String.eqb_refl. reflexivity.
    + destruct (String.eqb_spec k0 k) as [->|]; [|apply IH; assumption].
      exfalso. apply Hk0. apply list_elem_of_fmap. exists (k, v). split; auto.
Qed.

(** Writing a key that is not there appends the item. *)
Lemma dict_set_fresh d k v : k ∉ dict_keys d -> dict_set d k v = d ++ [(k, v)].
Proof.
  induction d as [|[k0 v0] d IH]; [reflexivity|].
  rewrite dict_keys_cons. intros [Hne Hk]%not_elem_of_cons. cbn [dict_set app].
  destruct (String.eqb_spec k0 k); [congruence|]. rewrite IH; auto.
Qed.

(** The keys after a write: unchanged for a key that is there, one more
    at the end otherwise. *)
Lemma dict_keys_set d k v :
  dict_keys (dict_set d k v) =
  if bool_decide (k ∈ dict_keys d) then dict_keys d else dict_keys d ++ [k].
Proof.
  induction d as [|[k0 v0] d IH].
  - rewrite bool_decide_eq_false_2; [reflexivity|]. apply not_elem_of_nil.
  - cbn [dict_set]. rewrite dict_keys_cons.
    destruct (String.eqb_spec k0 k) as [->|Hne].
    + rewrite bool_decide_eq_true_2; [reflexivity|]. left.
    + rewrite dict_keys_cons, IH.
      destruct (bool_decide_reflect (k ∈ dict_keys d)) as [Hin|Hin].
      * rewrite bool_decide_eq_true_2; [reflexivity|]. right. exact Hin.
      * rewrite bool_decide_eq_false_2; [reflexivity|].
        intros [?|?]%elem_of_cons; [congruence|contradiction].
Qed.



Lemma dict_set_truthy d k v : dict_truthy (dict_set d k v) = true.
Proof. destruct d as [|[k0 v0] d]; simpl; [reflexivity|]. destruct (String.eqb k0 k); reflexivity. Qed.

End DictFacts.


(** ** Lower-casing *)



(** ** normalize_headers *)

Section HeaderFacts.

Lemma headers_fold_untouched (h : Headers) k :
  (forall k' v', (k', v') ∈ h -> lower k' <> k) ->
  forall acc, dict_get (fold_left header_step h acc) k = dict_get acc k.
Proof.
  induction h as [|[k0 v0] h IH]; intros Hno acc; [reflexivity|].
  cbn [fold_left header_step]. rewrite IH.
  - apply dict_get_set_ne. apply (Hno k0 v0). left.
  - intros k' v' Hin. apply (Hno k' v'). right. exact Hin.
Qed.

Lemma headers_fold_last (h1 h2 : Headers) k v acc :
  (forall k' v', (k', v') ∈ h2 -> lower k' <> lower k) ->
  dict_get (fold_left header_step (h1 ++ (k, v) :: h2) acc) (lower k) = Some v.
Proof.
  intros Hno. rewrite fold_left_app. cbn [fold_left header_step].
  rewrite headers_fold_untouched by exact Hno. apply dict_get_set_eq.
Qed.



(** Over items whose keys are already lower-case and new, the loop only
    appends. *)
Lemma headers_fold_fixed (rest : Headers) :
  forall acc,
    (forall k, k ∈ dict_keys rest -> lower k = k) ->
    NoDup (dict_keys acc ++ dict_keys rest) ->
    fold_left header_step rest acc = acc ++ rest.
Proof.
  induction rest as [|[k v] rest IH]; intros acc Hlow Hnd.
  - cbn [fold_left]. rewrite app_nil_r. reflexivity.
  - cbn [fold_left header_step]. rewrite dict_keys_cons in Hnd, Hlow.
    rewrite (Hlow k) by left.
    assert (Hk : k ∉ dict_keys acc).
    { apply NoDup_app in Hnd as (_ & Hdisj & _). intros Hin.
      apply (Hdisj k Hin). left. }
    rewrite dict_set_fresh by exact Hk. rewrite IH.
    + rewrite <- app_assoc. reflexivity.
    + intros k' Hk'. apply Hlow. right. exact Hk'.
    + unfold dict_keys at 1. rewrite fmap_app. cbn [fmap list_fmap fst].
      rewrite <- app_assoc. exact Hnd.
Qed.

Lemma normalize_headers_unfold (h : Headers) :
  normalize_headers (Some h) = fold_left header_step h default_headers.
Proof. reflexivity. Qed.





End HeaderFacts.

(** ** normalize_params *)

Section ParamFacts.

(** What the loop of [normalize_params] writes for one item. *)
Local Abbreviation out_item :=
  (fun item : string * param_value => (item.1, normalize_param item.2)).

Lemma out_item_keys (p : Params) : dict_keys (out_item <$> p) = dict_keys p.
Proof.
  unfold dict_keys. rewrite <- list_fmap_compose. apply list_fmap_ext.
  intros _ [k v] _. reflexivity.
Qed.

(** Over the items of a dictionary the loop only appends. *)
Lemma params_fold (p : Params) :
  forall acc,
    NoDup (dict_keys acc ++ dict_keys p) ->
    fold_left param_step p acc = acc ++ (out_item <$> p).
Proof.
  induction p as [|[k v] p IH]; intros acc Hnd.
  - cbn [fold_left fmap list_fmap]. rewrite app_nil_r. reflexivity.
  - cbn [fold_left param_step]. rewrite dict_keys_cons in Hnd.
    assert (Hk : k ∉ dict_keys acc).
    { apply NoDup_app in Hnd as (_ & Hdisj & _). intros Hin.
      apply (Hdisj k Hin). left. }
    rewrite dict_set_fresh by exact Hk. rewrite IH.
    + rewrite <- app_assoc. reflexivity.
    + unfold dict_keys at 1. rewrite fmap_app. cbn [fmap list_fmap fst].
      rewrite <- app_assoc. exact Hnd.
Qed.

Lemma normalize_params_dict (p : Params) :
  is_dict p -> normalize_params (Some p) = out_item <$> p.
Proof.
  intros Hp. unfold normalize_params. rewrite params_fold; [reflexivity|].
  exact Hp.
Qed.



End ParamFacts.

(** ** Request construction *)


(** C4.  For every params argument of [Request] that is a dictionary with
    [bool], [int] or [str] values, [None] included: with [None] the
    request's params are empty; otherwise every item keeps its key and its
    position, [True] becomes ["1"], [False] becomes ["0"], and any other
    value becomes its [str] form, which loses nothing: distinct integers
    have distinct decimal forms and a string is kept as it is. *)
Theorem request_params_stringified
    (method endpoint : string) (headers : option Headers)
    (params : option Params) (data : value)
    (read write exclusive : option Fields) (deserialize : bool) :
  from_option is_dict True params ->
  req_params (Request_init method endpoint headers params data
                           read write exclusive deserialize) =
  match params with
  | None => []
  | Some p =>
      (fun item : string * param_value =>
         (item.1,
          match item.2 with
          | PBool true => "1"
          | PBool false => "0"
          | other => py_str other
          end)) <$> p
  end /\
  (forall z1 z2 : Z, py_str (PInt z1) = py_str (PInt z2) -> z1 = z2) /\
  (forall s : string, py_str (PStr s) = s).
Proof.
  intros Hwf. cbn [Request_init req_params]. split; [|split].
  - destruct params as [p|]; [|reflexivity]. cbn in Hwf.
    rewrite normalize_params_dict by exact Hwf.
    apply list_fmap_ext. intros _ [k [[]|z|s]] _; reflexivity.
  - intros z1 z2 H. cbn [py_str] in H. apply (inj pretty), H.
  - reflexivity.
Qed.

Lemma request_params_stringified_witness :
  from_option is_dict True
    (Some [("waitForSync", PBool true); ("silent", PBool false);
           ("limit", PInt (-7)); ("name", PStr "x")]) /\
  req_params (Request_init "get" "/_api/document" None
                (Some [("waitForSync", PBool true); ("silent", PBool false);
                       ("limit", PInt (-7)); ("name", PStr "x")])
                VNone None None None true) =
  [("waitForSync", "1"); ("silent", "0"); ("limit", "-7"); ("name", "x")].
Proof.
  assert (Hwf : from_option is_dict True
            (Some [("waitForSync", PBool true); ("silent", PBool false);
                   ("limit", PInt (-7)); ("name", PStr "x")])).
  { apply (bool_decide_unpack _). vm_compute. exact I. }
  split; [exact Hwf|].
  exact (proj1 (request_params_stringified "get" "/_api/document" None _ VNone
                  None None None true Hwf)).
Defined.


(** ** The object store and create_job *)

Lemma if_not_none_setitem {A} (o : option A) (f : A -> value) l k (h : heap) d :
  h !! l = Some d ->
  if_not_none o (fun x => setitem l k (f x)) h = (tt, <[l := set_opt d k (f <$> o)]> h).
Proof.
  intros Hl. destruct o as [a|]; cbn.
  - unfold setitem. rewrite Hl. reflexivity.
  - unfold mret, St_ret. rewrite insert_id by exact Hl. reflexivity.
Qed.

Lemma set_opt_get_ne d k o k' :
  k <> k' -> dict_get (set_opt d k o) k' = dict_get d k'.
Proof. intros Hne. destruct o; [apply dict_get_set_ne, Hne|reflexivity]. Qed.

Lemma set_opt_truthy d k o :
  dict_truthy d = true -> dict_truthy (set_opt d k o) = true.
Proof. intros Hd. destruct o; [apply dict_set_truthy|exact Hd]. Qed.

(** Once [store] is written, the later writes leave it alone. *)
Lemma merge_options_store d (store : bool) mg tc am rf :
  dict_get (merge_options d (Some store) mg tc am rf) "store" = Some (VBool store) /\
  dict_truthy (merge_options d (Some store) mg tc am rf) = true.
Proof.
  unfold merge_options. split.
  - rewrite !set_opt_get_ne by discriminate. apply dict_get_set_eq.
  - do 4 apply set_opt_truthy. apply dict_set_truthy.
Qed.

Section PregelFacts.

Variable resp_body : Response -> value.
Variable format_pregel_job_data : value -> value.
Variable py_int : value -> outcome Z.

Lemma create_job_request g a st mg tc am rf ap (h : heap) :
  (create_job resp_body py_int g a st mg tc am rf ap h).1.1 =
  Request_of "post" "/_api/control_pregel" (VDict (fresh (dom h))).
Proof.
  unfold create_job, mbind, St_bind, mret, St_ret, new_dict. cbv zeta.
  destruct ap as [l|]; cbv beta iota;
  repeat match goal with
  | |- context [if_not_none ?o ?f ?h] => destruct (if_not_none o f h) as [[] ?]
  | |- context [truthy ?l ?h] => destruct (truthy l h) as [[] ?]
  | |- context [setitem ?l ?k ?v ?h] => destruct (setitem l k v h) as [[] ?]
  end; reflexivity.
Qed.

Lemma bind_run {A B} (m : St A) (k : A -> St B) (h : heap) :
  (m ≫= k) h = let '(a, h') := m h in k a h'.
Proof. reflexivity. Qed.

(** The five conditional writes and the final attachment of the options
    to the body, run in a store where the body lives at [ld] and the
    options at [lp]; [k] is the rest of the function. *)
Lemma create_job_tail {B} (k : St B) st mg tc am rf (h0 : heap) ld lp d0 base :
  ld <> lp ->
  h0 !! ld = Some base ->
  h0 !! lp = Some d0 ->
  (if_not_none st (λ store : bool, setitem lp "store" (VBool store));;
   if_not_none mg (λ max_gss : Z, setitem lp "maxGSS" (VInt max_gss));;
   if_not_none tc (λ thread_count : Z, setitem lp "parallelism" (VInt thread_count));;
   if_not_none am (λ async_mode : bool, setitem lp "async" (VBool async_mode));;
   if_not_none rf (λ result_field : string, setitem lp "resultField" (VStr result_field));;
   nonempty ← truthy lp;
   (if nonempty : bool then setitem ld "params" (VDict lp) else mret tt);;
   k) h0 =
  k (<[ld := if dict_truthy (merge_options d0 st mg tc am rf)
             then dict_set base "params" (VDict lp) else base]>
       (<[lp := merge_options d0 st mg tc am rf]> h0)).
Proof.
  intros Hne Hld Hlp.
  unfold mbind, St_bind.
  erewrite if_not_none_setitem by exact Hlp. cbv beta iota.
  do 4 (erewrite if_not_none_setitem by apply lookup_insert_eq; cbv beta iota;
        rewrite insert_insert_eq).
  fold (merge_options d0 st mg tc am rf).
  unfold truthy. rewrite lookup_insert_eq.
  destruct (dict_truthy (merge_options d0 st mg tc am rf)).
  - unfold setitem. rewrite lookup_insert_ne by congruence. rewrite Hld. reflexivity.
  - unfold mret, St_ret. f_equal. symmetry. apply insert_id.
    rewrite lookup_insert_ne by congruence. exact Hld.
Qed.

Lemma fresh_loc_None (h : heap) : h !! fresh (dom h) = None.
Proof. apply not_elem_of_dom, is_fresh. Qed.

Lemma create_job_store_given g a st mg tc am rf l (h : heap) d :
  h !! l = Some d ->
  (create_job resp_body py_int g a st mg tc am rf (Some l) h).2 =
  <[fresh (dom h) :=
      if dict_truthy (merge_options d st mg tc am rf)
      then [("algorithm", VStr a); ("graphName", VStr g); ("params", VDict l)]
      else [("algorithm", VStr a); ("graphName", VStr g)]]>
    (<[l := merge_options d st mg tc am rf]> h).
Proof.
  intros Hl.
  assert (Hne : fresh (dom h) <> l).
  { intros Heq. pose proof (fresh_loc_None h) as Hf. rewrite Heq in Hf. congruence. }
  unfold create_job. rewrite bind_run. unfold new_dict at 1. cbv beta iota zeta.
  rewrite bind_run. unfold mret at 1, St_ret at 1. cbv beta iota.
  rewrite create_job_tail
    with (d0 := d) (base := [("algorithm", VStr a); ("graphName", VStr g)]).
  - unfold mret, St_ret. cbn [snd].
    rewrite (insert_insert_ne _ l) by congruence. rewrite insert_insert_eq.
    reflexivity.
  - exact Hne.
  - apply lookup_insert_eq.
  - rewrite lookup_insert_ne by exact Hne. exact Hl.
Qed.

Lemma create_job_store_fresh g a st mg tc am rf (h : heap) :
  let ld := fresh (dom h) in
  let lp := fresh (dom (<[ld := [("algorithm", VStr a); ("graphName", VStr g)]]> h)) in
  (create_job resp_body py_int g a st mg tc am rf None h).2 =
  <[ld :=
      if dict_truthy (merge_options [] st mg tc am rf)
      then [("algorithm", VStr a); ("graphName", VStr g); ("params", VDict lp)]
      else [("algorithm", VStr a); ("graphName", VStr g)]]>
    (<[lp := merge_options [] st mg tc am rf]> h).
Proof.
  intros ld lp.
  assert (Hne : ld <> lp).
  { intros Heq. pose proof (fresh_loc_None (<[ld := [("algorithm", VStr a); ("graphName", VStr g)]]> h)) as Hf.
    fold lp in Hf. rewrite <- Heq in Hf. rewrite lookup_insert_eq in Hf. discriminate. }
  unfold create_job. rewrite bind_run. unfold new_dict at 1. cbv beta iota zeta.
  rewrite bind_run. unfold new_dict at 1. cbv beta iota zeta.
  fold ld. fold lp.
  rewrite create_job_tail
    with (d0 := []) (base := [("algorithm", VStr a); ("graphName", VStr g)]).
  - unfold mret, St_ret. cbn [snd].
    rewrite insert_insert_eq.
    rewrite (insert_insert_ne _ lp) by (intros E; apply Hne; symmetry; exact E).
    rewrite insert_insert_eq. reflexivity.
  - exact Hne.
  - rewrite lookup_insert_ne by (intros E; apply Hne; symmetry; exact E).
    apply lookup_insert_eq.
  - apply lookup_insert_eq.
Qed.

(** Scalars need no fuel. *)
Lemma snapshot_scalar n (h : heap) :
  snapshot n h VNone = Some JNull /\
  (forall b, snapshot n h (VBool b) = Some (JBool b)) /\
  (forall z, snapshot n h (VInt z) = Some (JInt z)) /\
  (forall s, snapshot n h (VStr s) = Some (JStr s)).
Proof. destruct n; repeat split. Qed.

(** C1.  [create_job(graph=g, algorithm=a, store=False, max_gss=5)], the
    other arguments at their defaults, builds a request with method
    ["post"] and endpoint ["/_api/control_pregel"] whose body, read in the
    store the call leaves behind, is the document
    [{"algorithm": a, "graphName": g, "params": {"store": false, "maxGSS": 5}}]
    and nothing else, whatever the store was before the call. *)
Theorem create_job_body_store_false_max_gss_5 (g a : string) (h : heap) (n : nat) :
  let run :=
    create_job resp_body py_int g a (Some false) (Some 5) None None None None h in
  let request := run.1.1 in
  req_method request = "post" /\
  req_endpoint request = "/_api/control_pregel" /\
  snapshot (S (S n)) run.2 (req_data request) =
  Some (JObject
          [("algorithm", JStr a); ("graphName", JStr g);
           ("params", JObject [("store", JBool false); ("maxGSS", JInt 5)])]).
Proof.
  intros run request. subst request run.
  rewrite create_job_request, create_job_store_fresh.
  split; [reflexivity|]. split; [reflexivity|].
  set (ld := fresh (dom h)).
  set (lp := fresh (dom (<[ld := [("algorithm", VStr a); ("graphName", VStr g)]]> h))).
  assert (Hne : ld <> lp).
  { intros Heq.
    pose proof (fresh_loc_None
                  (<[ld := [("algorithm", VStr a); ("graphName", VStr g)]]> h)) as Hf.
    fold lp in Hf. rewrite <- Heq, lookup_insert_eq in Hf. discriminate Hf. }
  change (merge_options [] (Some false) (Some 5) None None None)
    with [("store", VBool false); ("maxGSS", VInt 5)].
  cbn [dict_truthy Request_of Request_init req_data].
  cbn [snapshot]. rewrite lookup_insert_eq.
  cbn [mapM fst snd snapshot fmap option_fmap option_map mbind option_bind mret option_ret].
  rewrite lookup_insert_ne by exact Hne. rewrite lookup_insert_eq.
  destruct (snapshot_scalar n
              (<[ld := [("algorithm", VStr a); ("graphName", VStr g);
                        ("params", VDict lp)]]>
                 (<[lp := [("store", VBool false); ("maxGSS", VInt 5)]]> h)))
    as (_ & Hb & Hz & _).
  cbn [mapM fst snd]. rewrite Hb, Hz. reflexivity.
Qed.

(** C7.  When [create_job] is given the caller's options dictionary, the
    optional parameters are written into that very object: after the call
    the caller's dictionary holds the merged items, the only new object in
    the store is the request body, and the body's ["params"] entry is a
    reference to the caller's dictionary, not to a copy.  A second call
    with the same dictionary therefore starts from what the first call
    wrote, and the options seen through the first request change with
    it. *)
Theorem create_job_merges_into_caller_mapping
    (g a : string) (st : option bool) (mg tc : option Z) (am : option bool)
    (rf : option string)
    (g' a' : string) (st' : option bool) (mg' tc' : option Z)
    (am' : option bool) (rf' : option string)
    (l : loc) (d : dict value) (h : heap) :
  h !! l = Some d ->
  let run1 := create_job resp_body py_int g a st mg tc am rf (Some l) h in
  let merged := merge_options d st mg tc am rf in
  let run2 :=
    create_job resp_body py_int g' a' st' mg' tc' am' rf' (Some l) run1.2 in
  run1.2 !! l = Some merged /\
  (exists ld,
      h !! ld = None /\
      req_data run1.1.1 = VDict ld /\
      run1.2 =
      <[ld := if dict_truthy merged
              then [("algorithm", VStr a); ("graphName", VStr g);
                    ("params", VDict l)]
              else [("algorithm", VStr a); ("graphName", VStr g)]]>
        (<[l := merged]> h)) /\
  run2.2 !! l = Some (merge_options merged st' mg' tc' am' rf').
Proof.
  intros Hl run1 merged run2.
  assert (Hne : fresh (dom h) <> l).
  { intros Heq. pose proof (fresh_loc_None h) as Hf. rewrite Heq in Hf.
    congruence. }
  assert (H1 : run1.2 !! l = Some merged).
  { subst run1. rewrite create_job_store_given with (d := d) by exact Hl.
    rewrite lookup_insert_ne by exact Hne. apply lookup_insert_eq. }
  split; [exact H1|]. split.
  - exists (fresh (dom h)). split; [apply fresh_loc_None|]. split.
    + subst run1. rewrite create_job_request. reflexivity.
    + subst run1. apply create_job_store_given, Hl.
  - subst run2. rewrite create_job_store_given with (d := merged) by exact H1.
    rewrite lookup_insert_ne; [apply lookup_insert_eq|].
    intros Heq. pose proof (fresh_loc_None run1.2) as Hf. rewrite Heq in Hf.
    congruence.
Qed.

(** C10.  Whenever [store] is a [bool], the body of the request built by
    [create_job] has a ["params"] entry, it refers to an options
    dictionary, and that dictionary has the key ["store"] with the value
    passed, whatever the other arguments are. *)
Theorem create_job_body_always_has_store
    (g a : string) (store : bool) (mg tc : option Z) (am : option bool)
    (rf : option string) (ap : option loc) (h : heap) :
  from_option (fun l => is_Some (h !! l)) True ap ->
  let run := create_job resp_body py_int g a (Some store) mg tc am rf ap h in
  exists ld body lp options,
    req_data run.1.1 = VDict ld /\
    run.2 !! ld = Some body /\
    dict_get body "params" = Some (VDict lp) /\
    run.2 !! lp = Some options /\
    dict_get options "store" = Some (VBool store).
Proof.
  intros Hap run. subst run. rewrite create_job_request.
  destruct ap as [l|].
  - destruct Hap as [d Hl].
    rewrite create_job_store_given with (d := d) by exact Hl.
    destruct (merge_options_store d store mg tc am rf) as [Hst Htr].
    rewrite Htr.
    assert (Hne : fresh (dom h) <> l).
    { intros Heq. pose proof (fresh_loc_None h) as Hf. rewrite Heq in Hf.
      congruence. }
    eexists _, _, l, _. split; [reflexivity|].
    split; [apply lookup_insert_eq|]. split; [reflexivity|]. split.
    + rewrite lookup_insert_ne by exact Hne. apply lookup_insert_eq.
    + exact Hst.
  - rewrite create_job_store_fresh.
    destruct (merge_options_store [] store mg tc am rf) as [Hst Htr].
    rewrite Htr.
    set (ld := fresh (dom h)).
    set (lp := fresh (dom (<[ld := [("algorithm", VStr a); ("graphName", VStr g)]]> h))).
    assert (Hne : ld <> lp).
    { intros Heq.
      pose proof (fresh_loc_None
                    (<[ld := [("algorithm", VStr a); ("graphName", VStr g)]]> h))
        as Hf.
      fold lp in Hf. rewrite <- Heq, lookup_insert_eq in Hf. discriminate Hf. }
    eexists _, _, lp, _. split; [reflexivity|].
    split; [apply lookup_insert_eq|]. split; [reflexivity|]. split.
    + rewrite lookup_insert_ne by exact Hne. apply lookup_insert_eq.
    + exact Hst.
Qed.

(** C5.  [job(j)] builds a request with method ["get"] and endpoint
    ["/_api/control_pregel/"] followed by the decimal form of [j]; its
    response handler, given a response whose status is not in the 2xx
    range, raises [PregelJobGetError] carrying that response and that
    request, and given a 2xx response returns the formatted body. *)
Theorem job_response_handler (job_id : Z) (resp : Response) :
  let request := (job resp_body format_pregel_job_data job_id).1 in
  let response_handler := (job resp_body format_pregel_job_data job_id).2 in
  req_method request = "get" /\
  req_endpoint request = ("/_api/control_pregel/" ++ pretty job_id)%string /\
  response_handler resp =
  if bool_decide (200 <= resp_status_code resp < 300)
  then Return (format_pregel_job_data (resp_body resp))
  else Raise (PregelJobGetError resp request).
Proof.
  intros request response_handler. subst request response_handler.
  cbn [job fst snd]. split; [reflexivity|]. split; [reflexivity|].
  unfold is_success. case_bool_decide as Hs.
  - destruct Hs as [Hlo Hhi].
    apply Z.leb_le in Hlo. apply Z.ltb_lt in Hhi. rewrite Hlo, Hhi. reflexivity.
  - destruct (Z.leb_spec 200 (resp_status_code resp));
      destruct (Z.ltb_spec (resp_status_code resp) 300);
      cbn [andb]; try reflexivity.
    exfalso. apply Hs. split; assumption.
Qed.

(** [job(42)] against a 404. *)
Example job_42_not_found (resp : Response) :
  resp_status_code resp = 404 ->
  (job resp_body format_pregel_job_data 42).2 resp =
  Raise (PregelJobGetError resp
           (Request_of "get" "/_api/control_pregel/42" VNone)).
Proof.
  intros H404. cbn [job snd]. unfold is_success. rewrite H404. reflexivity.
Qed.

End PregelFacts.

Lemma create_job_merges_into_caller_mapping_witness :
  ({[7%nat := [("custom", VInt 1)]]} : heap) !! 7%nat = Some [("custom", VInt 1)] /\
  (create_job (fun _ => VNone) (fun _ => Return 0)
     "g" "pagerank" (Some true) None None None None (Some 7%nat)
     (create_job (fun _ => VNone) (fun _ => Return 0)
        "g" "pagerank" (Some false) (Some 5) None None None (Some 7%nat)
        {[7%nat := [("custom", VInt 1)]]}).2).2 !! 7%nat =
  Some [("custom", VInt 1); ("store", VBool true); ("maxGSS", VInt 5)].
Proof.
  assert (Hl : ({[7%nat := [("custom", VInt 1)]]} : heap) !! 7%nat =
               Some [("custom", VInt 1)]) by reflexivity.
  split; [exact Hl|].
  exact (proj2 (proj2
    (create_job_merges_into_caller_mapping (fun _ => VNone) (fun _ => Return 0)
       "g" "pagerank" (Some false) (Some 5) None None None
       "g" "pagerank" (Some true) None None None None
       7%nat [("custom", VInt 1)] {[7%nat := [("custom", VInt 1)]]} Hl))).
Defined.

Lemma create_job_body_always_has_store_witness :
  from_option (fun l => is_Some (({[7%nat := [("custom", VInt 1)]]} : heap) !! l))
    True (Some 7%nat) /\
  exists ld body lp options,
    req_data
      (create_job (fun _ => VNone) (fun _ => Return 0)
         "g" "pagerank" (Some true) None None None None (Some 7%nat)
         {[7%nat := [("custom", VInt 1)]]}).1.1 = VDict ld /\
    (create_job (fun _ => VNone) (fun _ => Return 0)
       "g" "pagerank" (Some true) None None None None (Some 7%nat)
       {[7%nat := [("custom", VInt 1)]]}).2 !! ld = Some body /\
    dict_get body "params" = Some (VDict lp) /\
    (create_job (fun _ => VNone) (fun _ => Return 0)
       "g" "pagerank" (Some true) None None None None (Some 7%nat)
       {[7%nat := [("custom", VInt 1)]]}).2 !! lp = Some options /\
    dict_get options "store" = Some (VBool true).
Proof.
  assert (Hap : from_option
            (fun l => is_Some (({[7%nat := [("custom", VInt 1)]]} : heap) !! l))
            True (Some 7%nat)).
  { exists [("custom", VInt 1)]. reflexivity. }
  split; [exact Hap|].
  exact (create_job_body_always_has_store (fun _ => VNone) (fun _ => Return 0)
           "g" "pagerank" true None None None None (Some 7%nat)
           {[7%nat := [("custom", VInt 1)]]} Hap).
Defined.

(** ** The transport *)

Section TransportFacts.

Variable start_timeout : N.
Variable factor : N.

Lemma should_retry_status o a :
  should_retry o a =
  match attempt_status a with
  | Some status => bool_decide (status ∈ statuses o)
  | None => true
  end.
Proof. destruct a; reflexivity. Qed.

(** The loop started after [k] attempts with [n] retries left: it makes
    between one and [S n] further attempts, returns the outcome of the last
    one, went on after every attempt but the last because that attempt
    asked for a retry, and stops before the budget is spent only on an
    outcome that asks for none. *)
Lemma retry_loop_spec o (w : wire) n :
  forall k,
    let r := retry_loop start_timeout factor o w n k in
    (k < attempts_made r <= k + S n)%nat /\
    final r = w (Nat.pred (attempts_made r)) /\
    (forall i, (k <= i)%nat -> (S i < attempts_made r)%nat ->
               should_retry o (w i) = true) /\
    (attempts_made r = (k + S n)%nat \/
     should_retry o (w (Nat.pred (attempts_made r))) = false) /\
    waits r =
    get_timeout start_timeout factor <$> seq k (attempts_made r - S k).
Proof.
  induction n as [|n IH]; intros k; cbn [retry_loop].
  - cbn [attempts_made final waits Nat.pred].
    split; [lia|]. split; [reflexivity|]. split; [intros; lia|].
    split; [left; lia|]. rewrite Nat.sub_diag. reflexivity.
  - destruct (should_retry o (w k)) eqn:Hk.
    + specialize (IH (S k)). cbv zeta in IH.
      destruct IH as (Hrange & Hfinal & Hbefore & Hstop & Hwaits).
      cbn [attempts_made final waits].
      split; [lia|]. split; [exact Hfinal|]. split; [|split].
      * intros i Hi Hlt. destruct (decide (i = k)) as [->|Hne]; [exact Hk|].
        apply Hbefore; lia.
      * destruct Hstop as [Hfull|Hstop]; [left; lia|right; exact Hstop].
      * rewrite Hwaits.
        replace (attempts_made (retry_loop start_timeout factor o w n (S k)) - S k)%nat
          with (S (attempts_made (retry_loop start_timeout factor o w n (S k)) - S (S k)))
          by lia.
        reflexivity.
    + cbn [attempts_made final waits Nat.pred].
      split; [lia|]. split; [reflexivity|]. split; [intros; lia|].
      split; [right; exact Hk|]. rewrite Nat.sub_diag. reflexivity.
Qed.

(** Two networks that answer every attempt with the same status, or both
    with a failure, get the same number of attempts and the same waits. *)
Lemma retry_loop_status_only o (w w' : wire) n :
  (forall i, attempt_status (w i) = attempt_status (w' i)) ->
  forall k,
    attempts_made (retry_loop start_timeout factor o w n k) =
    attempts_made (retry_loop start_timeout factor o w' n k) /\
    waits (retry_loop start_timeout factor o w n k) =
    waits (retry_loop start_timeout factor o w' n k).
Proof.
  intros Hsame. induction n as [|n IH]; intros k; cbn [retry_loop].
  - split; reflexivity.
  - rewrite !should_retry_status, <- (Hsame k).
    destruct (attempt_status (w k)) as [status|].
    + destruct (bool_decide (status ∈ statuses o)).
      * cbn [attempts_made waits]. destruct (IH (S k)) as [-> ->]. split; reflexivity.
      * split; reflexivity.
    + cbn [attempts_made waits]. destruct (IH (S k)) as [-> ->]. split; reflexivity.
Qed.

Lemma create_session_run_spec host (w : wire) :
  let r := run_with_retries start_timeout factor (create_session host) w in
  (1 <= attempts_made r <= 3)%nat /\
  final r = w (Nat.pred (attempts_made r)) /\
  (forall i, (S i < attempts_made r)%nat ->
             should_retry (retry_options (create_session host)) (w i) = true) /\
  (attempts_made r = 3%nat \/
   should_retry (retry_options (create_session host))
                (w (Nat.pred (attempts_made r))) = false) /\
  waits r =
  get_timeout start_timeout factor <$> seq 0 (Nat.pred (attempts_made r)).
Proof.
  intros r.
  pose proof (retry_loop_spec (retry_options (create_session host)) w 2 0) as H.
  cbv zeta in H.
  change (retry_loop start_timeout factor (retry_options (create_session host))
                     w 2 0) with r in H.
  destruct H as (Hrange & Hfinal & Hbefore & Hstop & Hwaits).
  split; [lia|]. split; [exact Hfinal|]. split; [|split].
  - intros i Hi. apply Hbefore; [lia|exact Hi].
  - exact Hstop.
  - rewrite Hwaits. f_equal. f_equal. lia.
Qed.

(** C2.  The session built by [create_session], run against any network:
    an attempt asks for a retry exactly when it failed to connect or was
    answered with status 429, 500, 502, 503 or 504; between one and three
    attempts are made; every attempt but the last asked for a retry, and
    the loop stops before the third attempt only on an outcome that asks
    for none; the i-th wait is [start_timeout * factor ^ i]; whatever reply
    the last attempt got is handed back by [send_request] as a Response, so
    a 404 on the first attempt is returned after that one attempt; and two
    networks that differ only in the headers, reason and body of their
    replies get the same number of attempts. *)
Theorem transport_retry_policy (host : string) (w : wire) :
  let c := create_session host in
  let r := run_with_retries start_timeout factor c w in
  (forall a,
      should_retry (retry_options c) a = true <->
      match attempt_status a with
      | Some status => status ∈ [429; 500; 502; 503; 504]
      | None => True
      end) /\
  (1 <= attempts_made r <= 3)%nat /\
  (forall i, (S i < attempts_made r)%nat ->
             should_retry (retry_options c) (w i) = true) /\
  (attempts_made r = 3%nat \/
   should_retry (retry_options c) (w (Nat.pred (attempts_made r))) = false) /\
  final r = w (Nat.pred (attempts_made r)) /\
  waits r =
  (fun i => (start_timeout * factor ^ N.of_nat i)%N)
    <$> seq 0 (Nat.pred (attempts_made r)) /\
  (forall response method url headers params data auth,
      method ∈ http_verbs ->
      final r = Replied response ->
      send_request (RetryClient_session start_timeout factor c w)
                   method url headers params data auth =
      Return {| resp_method := method;
                resp_url := url;
                resp_headers := cr_headers response;
                resp_status_code := cr_status response;
                resp_status_text := cr_reason response;
                resp_raw_body := cr_text response |}) /\
  (forall response,
      w 0%nat = Replied response -> cr_status response = 404 ->
      attempts_made r = 1%nat /\ final r = Replied response) /\
  (forall w' : wire,
      (forall i, attempt_status (w i) = attempt_status (w' i)) ->
      attempts_made (run_with_retries start_timeout factor c w') =
      attempts_made r).
Proof.
  intros c r.
  pose proof (create_session_run_spec host w) as H. cbv zeta in H.
  change (run_with_retries start_timeout factor (create_session host) w)
    with r in H.
  change (create_session host) with c in H.
  destruct H as (Hrange & Hfinal & Hbefore & Hstop & Hwaits).
  split.
  { intros a. rewrite should_retry_status.
    destruct (attempt_status a) as [status|]; [|tauto].
    apply bool_decide_eq_true. }
  split; [exact Hrange|]. split; [exact Hbefore|]. split; [exact Hstop|].
  split; [exact Hfinal|]. split; [exact Hwaits|]. split; [|split].
  - intros response method url headers params data auth Hverb Hresp.
    unfold send_request, RetryClient_session. cbn [session_getattr].
    rewrite bool_decide_eq_true_2 by exact Hverb.
    unfold retry_result. fold r. rewrite Hresp. reflexivity.
  - intros response Hw0 H404.
    assert (Hno : should_retry (retry_options c) (w 0%nat) = false).
    { rewrite Hw0. cbn [should_retry]. rewrite H404. reflexivity. }
    assert (Hone : attempts_made r = 1%nat).
    { destruct (decide (1 < attempts_made r)%nat) as [Hlt|Hge]; [|lia].
      rewrite (Hbefore 0%nat Hlt) in Hno. discriminate Hno. }
    split; [exact Hone|]. rewrite Hfinal, Hone. exact Hw0.
  - intros w' Hsame. symmetry.
    apply (retry_loop_status_only (retry_options c) w w' 2 Hsame 0%nat).
Qed.

(** The network answers 503, 503, 200: the call succeeds on the third
    attempt, after two waits. *)
Example transport_503_503_200 :
  let reply status :=
    Replied {| cr_headers := []; cr_status := status;
               cr_reason := ""; cr_text := "" |} in
  let w : wire := fun i =>
    match i with
    | 0%nat | 1%nat => reply 503
    | _ => reply 200
    end in
  let r := run_with_retries start_timeout factor (create_session "db") w in
  attempts_made r = 3%nat /\ final r = reply 200 /\ length (waits r) = 2%nat.
Proof. repeat split. Qed.

(** The network answers 500 every time: the third reply is handed back,
    no fourth attempt is made. *)
Example transport_500_forever :
  let reply :=
    Replied {| cr_headers := []; cr_status := 500;
               cr_reason := ""; cr_text := "" |} in
  let r := run_with_retries start_timeout factor (create_session "db")
                            (fun _ => reply) in
  attempts_made r = 3%nat /\ final r = reply.
Proof. repeat split. Qed.



End TransportFacts.

(** C8.  The keyword arguments [send_request] passes to the session method
    are [url], [params], [data], [headers] and [auth]: no timeout is among
    them, and [REQUEST_TIMEOUT] (60) is not passed to the call. *)
Theorem send_request_passes_no_timeout
    (url : string) (headers : option Headers) (params : option (dict string))
    (data : option payload) (auth : option BasicAuth) :
  REQUEST_TIMEOUT = 60 /\
  dict_keys (request_kwargs url headers params data auth) =
  ["url"; "params"; "data"; "headers"; "auth"] /\
  dict_get (request_kwargs url headers params data auth) "timeout" = None.
Proof. repeat split. Qed.

(* ===================================================================== *)
(** * Further properties *)
(* ===================================================================== *)

(** ** The options dictionary of create_job *)

Lemma set_opt_get d k o k' :
  dict_get (set_opt d k o) k' =
  if String.eqb k k'
  then match o with Some v => Some v | None => dict_get d k' end
  else dict_get d k'.
Proof.
  destruct o as [v|]; cbn [set_opt].
  - apply dict_get_set.
  - destruct (String.eqb k k'); reflexivity.
Qed.

Lemma dict_set_same {V} (d : dict V) k v :
  dict_get d k = Some v -> dict_set d k v = d.
Proof.
  induction d as [|[k0 v0] d IH]; cbn [dict_get dict_set]; [discriminate|].
  destruct (String.eqb k0 k).
  - intros [= ->]. reflexivity.
  - intros H. rewrite IH by exact H. reflexivity.
Qed.

Lemma set_opt_same d k o :
  dict_get d k = match o with Some v => Some v | None => dict_get d k end ->
  set_opt d k o = d.
Proof. destruct o as [v|]; [apply dict_set_same|reflexivity]. Qed.

Lemma set_opt_keys_prefix d k o : dict_keys d `prefix_of` dict_keys (set_opt d k o).
Proof.
  destruct o as [v|]; cbn [set_opt]; [|reflexivity].
  rewrite dict_keys_set. case_bool_decide; [reflexivity|].
  apply prefix_app_r. reflexivity.
Qed.

(** What each of the five option names holds after the writes. *)
Lemma merge_options_get d st mg tc am rf :
  let m := merge_options d st mg tc am rf in
  dict_get m "store" =
    match st with Some b => Some (VBool b) | None => dict_get d "store" end /\
  dict_get m "maxGSS" =
    match mg with Some z => Some (VInt z) | None => dict_get d "maxGSS" end /\
  dict_get m "parallelism" =
    match tc with Some z => Some (VInt z) | None => dict_get d "parallelism" end /\
  dict_get m "async" =
    match am with Some b => Some (VBool b) | None => dict_get d "async" end /\
  dict_get m "resultField" =
    match rf with Some s => Some (VStr s) | None => dict_get d "resultField" end.
Proof.
  unfold merge_options. cbv zeta. rewrite !set_opt_get. cbn [String.eqb Ascii.eqb Bool.eqb].
  destruct st, mg, tc, am, rf; repeat split.
Qed.

Lemma merge_options_get_other d st mg tc am rf k :
  k ∉ ["store"; "maxGSS"; "parallelism"; "async"; "resultField"] ->
  dict_get (merge_options d st mg tc am rf) k = dict_get d k.
Proof.
  intros Hk. unfold merge_options. cbv zeta.
  rewrite !set_opt_get_ne; [reflexivity|..];
    intros <-; apply Hk; set_solver.
Qed.

Lemma merge_options_keys_prefix d st mg tc am rf :
  dict_keys d `prefix_of` dict_keys (merge_options d st mg tc am rf).
Proof.
  unfold merge_options. cbv zeta.
  repeat (etrans; [|apply set_opt_keys_prefix]). reflexivity.
Qed.

Lemma merge_options_empty d st mg tc am rf :
  dict_truthy (merge_options d st mg tc am rf) = false <->
  d = [] /\ st = None /\ mg = None /\ tc = None /\ am = None /\ rf = None.
Proof.
  split.
  - intros Hf.
    assert (Hd : d = []).
    { destruct d as [|kv d]; [reflexivity|]. exfalso.
      assert (Ht : dict_truthy (merge_options (kv :: d) st mg tc am rf) = true)
        by (unfold merge_options; do 5 apply set_opt_truthy; reflexivity).
      congruence. }
    subst d.
    assert (Hany : forall m : dict value,
               dict_truthy m = true -> m = merge_options [] st mg tc am rf ->
               False) by (intros m Ht ->; congruence).
    destruct st as [b|].
    { exfalso. eapply Hany; [|reflexivity]. unfold merge_options.
      do 4 apply set_opt_truthy. apply dict_set_truthy. }
    destruct mg as [z|].
    { exfalso. eapply Hany; [|reflexivity]. unfold merge_options.
      do 3 apply set_opt_truthy. apply dict_set_truthy. }
    destruct tc as [z|].
    { exfalso. eapply Hany; [|reflexivity]. unfold merge_options.
      do 2 apply set_opt_truthy. apply dict_set_truthy. }
    destruct am as [b|].
    { exfalso. eapply Hany; [|reflexivity]. unfold merge_options.
      apply set_opt_truthy. apply dict_set_truthy. }
    destruct rf as [s|].
    { exfalso. eapply Hany; [|reflexivity]. unfold merge_options.
      apply dict_set_truthy. }
    repeat split.
  - intros (-> & -> & -> & -> & -> & ->). reflexivity.
Qed.

Lemma merge_options_twice d st mg tc am rf :
  merge_options (merge_options d st mg tc am rf) st mg tc am rf =
  merge_options d st mg tc am rf.
Proof.
  destruct (merge_options_get d st mg tc am rf) as (H1 & H2 & H3 & H4 & H5).
  set (m := merge_options d st mg tc am rf) in *.
  unfold merge_options at 1. cbv zeta.
  rewrite (set_opt_same m "store") by (rewrite H1; destruct st; reflexivity).
  rewrite (set_opt_same m "maxGSS") by (rewrite H2; destruct mg; reflexivity).
  rewrite (set_opt_same m "parallelism") by (rewrite H3; destruct tc; reflexivity).
  rewrite (set_opt_same m "async") by (rewrite H4; destruct am; reflexivity).
  apply set_opt_same. rewrite H5. destruct rf; reflexivity.
Qed.

(** A document read from a store is read unchanged from any larger store. *)
Lemma snapshot_mono n :
  forall (h h' : heap) v j,
    h ⊆ h' -> snapshot n h v = Some j -> snapshot n h' v = Some j.
Proof.
  induction n as [|n IH]; intros h h' v j Hsub Hs.
  - destruct v; cbn [snapshot] in *; congruence.
  - destruct v as [| | | |l]; cbn [snapshot] in *; try congruence.
    destruct (h !! l) as [d|] eqn:Hl; [|discriminate Hs].
    assert (Hl' : h' !! l = Some d) by exact (lookup_weaken _ _ _ _ Hl Hsub).
    rewrite Hl'.
    destruct (mapM (fun kv : string * value => pair kv.1 <$> snapshot n h kv.2) d)
      as [members|] eqn:Hm; [|discriminate Hs].
    apply mapM_Some in Hm.
    assert (Hm' : mapM (fun kv : string * value =>
                          pair kv.1 <$> snapshot n h' kv.2) d = Some members).
    { apply mapM_Some. eapply Forall2_impl; [exact Hm|].
      intros kv y Hy. cbn beta in *.
      destruct (snapshot n h kv.2) as [x|] eqn:Hx; [|discriminate Hy].
      rewrite (IH h h' _ _ Hsub Hx). exact Hy. }
    rewrite Hm'. exact Hs.
Qed.

Section CreateJobFacts.

Variable resp_body : Response -> value.
Variable format_pregel_job_data : value -> value.
Variable py_int : value -> outcome Z.

(** X1.  The body of the request has a ["params"] entry exactly when there is
    something to put under it: with no optional argument given and no
    caller dictionary, or an empty one, the body is
    [{"algorithm": a, "graphName": g}]; in every other case it is these two
    entries followed by ["params"], a reference to the options dictionary,
    which is the caller's when one was passed and a new one otherwise. *)
Theorem create_job_params_entry
    (g a : string) (st : option bool) (mg tc : option Z) (am : option bool)
    (rf : option string) (ap : option loc) (h : heap) (d0 : dict value) :
  match ap with Some l => h !! l = Some d0 | None => d0 = [] end ->
  let run := create_job resp_body py_int g a st mg tc am rf ap h in
  let nothing :=
    d0 = [] /\ st = None /\ mg = None /\ tc = None /\ am = None /\ rf = None in
  exists ld body,
    req_data run.1.1 = VDict ld /\
    run.2 !! ld = Some body /\
    (nothing -> body = [("algorithm", VStr a); ("graphName", VStr g)]) /\
    (~ nothing ->
     exists lp,
       body = [("algorithm", VStr a); ("graphName", VStr g);
               ("params", VDict lp)] /\
       run.2 !! lp = Some (merge_options d0 st mg tc am rf) /\
       match ap with Some l => lp = l | None => h !! lp = None end).
Proof.
  intros Hap run nothing. subst run. rewrite create_job_request.
  pose proof (merge_options_empty d0 st mg tc am rf) as Hempty.
  fold nothing in Hempty.
  destruct ap as [l|].
  - rewrite create_job_store_given with (d := d0) by exact Hap.
    assert (Hne : fresh (dom h) <> l).
    { intros Heq. pose proof (fresh_loc_None h) as Hf. rewrite Heq in Hf.
      congruence. }
    eexists _, _. split; [reflexivity|]. split; [apply lookup_insert_eq|].
    split.
    + intros Hn. apply Hempty in Hn. rewrite Hn. reflexivity.
    + intros Hn.
      destruct (dict_truthy (merge_options d0 st mg tc am rf)) eqn:Ht.
      * exists l. split; [reflexivity|]. split; [|reflexivity].
        rewrite lookup_insert_ne by exact Hne. apply lookup_insert_eq.
      * exfalso. apply Hn, Hempty. reflexivity.
  - subst d0. rewrite create_job_store_fresh.
    set (ld := fresh (dom h)).
    set (lp := fresh (dom (<[ld := [("algorithm", VStr a); ("graphName", VStr g)]]> h))).
    assert (Hlp : (<[ld := [("algorithm", VStr a); ("graphName", VStr g)]]> h) !! lp = None)
      by apply fresh_loc_None.
    assert (Hne : ld <> lp).
    { intros Heq. rewrite <- Heq, lookup_insert_eq in Hlp. discriminate Hlp. }
    eexists _, _. split; [reflexivity|]. split; [apply lookup_insert_eq|].
    split.
    + intros Hn. apply Hempty in Hn. rewrite Hn. reflexivity.
    + intros Hn.
      destruct (dict_truthy (merge_options [] st mg tc am rf)) eqn:Ht.
      * exists lp. split; [reflexivity|]. split.
        -- rewrite lookup_insert_ne by exact Hne. apply lookup_insert_eq.
        -- rewrite lookup_insert_ne in Hlp by exact Hne. exact Hlp.
      * exfalso. apply Hn, Hempty. reflexivity.
Qed.

(** X4.  [create_job] changes no object of the store other than the caller's
    options dictionary, and removes none. *)
Theorem create_job_frame
    (g a : string) (st : option bool) (mg tc : option Z) (am : option bool)
    (rf : option string) (ap : option loc) (h : heap) :
  from_option (fun l => is_Some (h !! l)) True ap ->
  let run := create_job resp_body py_int g a st mg tc am rf ap h in
  (forall l' x, h !! l' = Some x -> ap <> Some l' -> run.2 !! l' = Some x) /\
  dom h ⊆ dom run.2.
Proof.
  intros Hap run. subst run.
  destruct ap as [l|].
  - destruct Hap as [d Hl].
    rewrite create_job_store_given with (d := d) by exact Hl. split.
    + intros l' x Hl' Hne.
      rewrite !lookup_insert_ne; [exact Hl'|congruence|].
      intros Heq. pose proof (fresh_loc_None h) as Hf. rewrite Heq in Hf.
      congruence.
    + rewrite !dom_insert. set_solver.
  - rewrite create_job_store_fresh. cbv zeta.
    set (ld := fresh (dom h)).
    set (lp := fresh (dom (<[ld := [("algorithm", VStr a); ("graphName", VStr g)]]> h))).
    split.
    + intros l' x Hl' _.
      assert (Hlp : (<[ld := [("algorithm", VStr a); ("graphName", VStr g)]]> h) !! lp = None)
        by apply fresh_loc_None.
      rewrite !lookup_insert_ne; [exact Hl'| |].
      * intros Heq. subst l'.
        destruct (decide (ld = lp)) as [E|E].
        -- rewrite <- E, lookup_insert_eq in Hlp. discriminate Hlp.
        -- rewrite lookup_insert_ne in Hlp by exact E. congruence.
      * intros Heq. pose proof (fresh_loc_None h) as Hf. fold ld in Hf.
        rewrite Heq in Hf. congruence.
    + rewrite !dom_insert. set_solver.
Qed.

(** X3.  Merging into the caller's dictionary: an optional argument that is
    given replaces the entry of its name, an argument left at [None] leaves
    the caller's entry of that name alone, every other entry is kept, and
    the caller's keys keep their order, new keys coming after them. *)
Theorem create_job_arguments_override
    (g a : string) (st : option bool) (mg tc : option Z) (am : option bool)
    (rf : option string) (l : loc) (d : dict value) (h : heap) :
  h !! l = Some d ->
  exists d',
    (create_job resp_body py_int g a st mg tc am rf (Some l) h).2 !! l = Some d' /\
    dict_get d' "store" =
      match st with Some b => Some (VBool b) | None => dict_get d "store" end /\
    dict_get d' "maxGSS" =
      match mg with Some z => Some (VInt z) | None => dict_get d "maxGSS" end /\
    dict_get d' "parallelism" =
      match tc with Some z => Some (VInt z) | None => dict_get d "parallelism" end /\
    dict_get d' "async" =
      match am with Some b => Some (VBool b) | None => dict_get d "async" end /\
    dict_get d' "resultField" =
      match rf with Some s => Some (VStr s) | None => dict_get d "resultField" end /\
    (forall k,
        k ∉ ["store"; "maxGSS"; "parallelism"; "async"; "resultField"] ->
        dict_get d' k = dict_get d k) /\
    dict_keys d `prefix_of` dict_keys d'.
Proof.
  intros Hl. exists (merge_options d st mg tc am rf).
  destruct (merge_options_get d st mg tc am rf) as (H1 & H2 & H3 & H4 & H5).
  split.
  { rewrite create_job_store_given with (d := d) by exact Hl.
    rewrite lookup_insert_ne; [apply lookup_insert_eq|].
    intros Heq. pose proof (fresh_loc_None h) as Hf. rewrite Heq in Hf.
    congruence. }
  split; [exact H1|]. split; [exact H2|]. split; [exact H3|].
  split; [exact H4|]. split; [exact H5|]. split.
  - intros k Hk. apply merge_options_get_other, Hk.
  - apply merge_options_keys_prefix.
Qed.

(** X5.  Calling [create_job] again with the same optional arguments and the
    same caller dictionary leaves the dictionary as the first call left
    it. *)
Theorem create_job_repeat_keeps_options
    (g a g' a' : string) (st : option bool) (mg tc : option Z)
    (am : option bool) (rf : option string) (l : loc) (d : dict value)
    (h : heap) :
  h !! l = Some d ->
  let run1 := create_job resp_body py_int g a st mg tc am rf (Some l) h in
  let run2 := create_job resp_body py_int g' a' st mg tc am rf (Some l) run1.2 in
  run2.2 !! l = run1.2 !! l.
Proof.
  intros Hl run1 run2.
  assert (H1 : run1.2 !! l = Some (merge_options d st mg tc am rf)).
  { subst run1. rewrite create_job_store_given with (d := d) by exact Hl.
    rewrite lookup_insert_ne; [apply lookup_insert_eq|].
    intros Heq. pose proof (fresh_loc_None h) as Hf. rewrite Heq in Hf.
    congruence. }
  rewrite H1. subst run2.
  rewrite create_job_store_given with (d := merge_options d st mg tc am rf)
    by exact H1.
  rewrite lookup_insert_ne.
  - rewrite lookup_insert_eq, merge_options_twice. reflexivity.
  - intros Heq. pose proof (fresh_loc_None run1.2) as Hf. rewrite Heq in Hf.
    congruence.
Qed.

(** X6.  A call without [algorithm_params] writes to new objects only: every
    document that could be read from the store before the call, the body
    of an earlier request among them, reads the same after it. *)
Theorem create_job_without_options_keeps_documents
    (g a : string) (st : option bool) (mg tc : option Z) (am : option bool)
    (rf : option string) (h : heap) (n : nat) (v : value) (j : json) :
  snapshot n h v = Some j ->
  snapshot n (create_job resp_body py_int g a st mg tc am rf None h).2 v = Some j.
Proof.
  intros Hs. apply (snapshot_mono n h); [|exact Hs].
  rewrite create_job_store_fresh. cbv zeta.
  set (ld := fresh (dom h)).
  set (lp := fresh (dom (<[ld := [("algorithm", VStr a); ("graphName", VStr g)]]> h))).
  assert (Hld : h !! ld = None) by apply fresh_loc_None.
  assert (Hlp : (<[ld := [("algorithm", VStr a); ("graphName", VStr g)]]> h) !! lp = None)
    by apply fresh_loc_None.
  assert (Hne : ld <> lp).
  { intros Heq. rewrite <- Heq, lookup_insert_eq in Hlp. discriminate Hlp. }
  rewrite lookup_insert_ne in Hlp by exact Hne.
  etrans; [apply (insert_subseteq h lp), Hlp|].
  apply insert_subseteq. rewrite lookup_insert_ne by congruence. exact Hld.
Qed.

(** X2.  Without a caller dictionary the options dictionary is new and holds
    exactly the optional arguments that were given, under their wire names
    and in the order store, maxGSS, parallelism, async, resultField; an
    argument left at [None] is left out, not sent as null. *)
Theorem create_job_new_options_exact
    (g a : string) (st : option bool) (mg tc : option Z) (am : option bool)
    (rf : option string) (h : heap) :
  let run := create_job resp_body py_int g a st mg tc am rf None h in
  exists lp,
    h !! lp = None /\
    VDict lp <> req_data run.1.1 /\
    run.2 !! lp =
    Some (omap (fun kv : string * option value => pair kv.1 <$> kv.2)
               [("store", VBool <$> st); ("maxGSS", VInt <$> mg);
                ("parallelism", VInt <$> tc); ("async", VBool <$> am);
                ("resultField", VStr <$> rf)]).
Proof.
  intros run. subst run. rewrite create_job_request, create_job_store_fresh.
  set (ld := fresh (dom h)).
  set (lp := fresh (dom (<[ld := [("algorithm", VStr a); ("graphName", VStr g)]]> h))).
  assert (Hlp : (<[ld := [("algorithm", VStr a); ("graphName", VStr g)]]> h) !! lp = None)
    by apply fresh_loc_None.
  assert (Hne : ld <> lp).
  { intros Heq. rewrite <- Heq, lookup_insert_eq in Hlp. discriminate Hlp. }
  exists lp. split; [|split].
  - rewrite lookup_insert_ne in Hlp by exact Hne. exact Hlp.
  - cbn [Request_of Request_init req_data]. congruence.
  - rewrite lookup_insert_ne by exact Hne. rewrite lookup_insert_eq. f_equal.
    destruct st, mg, tc, am, rf; reflexivity.
Qed.

End CreateJobFacts.

Lemma create_job_params_entry_witness :
  ({[7%nat := []]} : heap) !! 7%nat = Some [] /\
  exists ld,
    req_data (create_job (fun _ => VNone) (fun _ => Return 0)
                "g" "pagerank" None None None None None (Some 7%nat)
                {[7%nat := []]}).1.1 = VDict ld /\
    (create_job (fun _ => VNone) (fun _ => Return 0)
       "g" "pagerank" None None None None None (Some 7%nat)
       {[7%nat := []]}).2 !! ld =
    Some [("algorithm", VStr "pagerank"); ("graphName", VStr "g")].
Proof.
  assert (Hl : ({[7%nat := []]} : heap) !! 7%nat = Some []) by reflexivity.
  split; [exact Hl|].
  destruct (create_job_params_entry (fun _ => VNone) (fun _ => Return 0)
              "g" "pagerank" None None None None None (Some 7%nat)
              {[7%nat := []]} [] Hl)
    as (ld & body & Hd & Hb & Hnothing & _).
  exists ld. split; [exact Hd|]. rewrite Hb. f_equal. apply Hnothing.
  repeat split.
Defined.

Lemma create_job_frame_witness :
  from_option
    (fun l => is_Some (({[7%nat := [("custom", VInt 1)]; 8%nat := []]} : heap) !! l))
    True (Some 7%nat) /\
  (create_job (fun _ => VNone) (fun _ => Return 0)
     "g" "pagerank" (Some true) None None None None (Some 7%nat)
     {[7%nat := [("custom", VInt 1)]; 8%nat := []]}).2 !! 8%nat = Some [].
Proof.
  assert (Hap : from_option
            (fun l => is_Some (({[7%nat := [("custom", VInt 1)]; 8%nat := []]}
                                 : heap) !! l))
            True (Some 7%nat)).
  { exists [("custom", VInt 1)]. reflexivity. }
  split; [exact Hap|].
  apply (proj1 (create_job_frame (fun _ => VNone) (fun _ => Return 0)
                  "g" "pagerank" (Some true) None None None None (Some 7%nat)
                  {[7%nat := [("custom", VInt 1)]; 8%nat := []]} Hap)).
  - reflexivity.
  - discriminate.
Defined.

Lemma create_job_arguments_override_witness :
  ({[7%nat := [("store", VBool true); ("custom", VInt 1)]]} : heap) !! 7%nat =
  Some [("store", VBool true); ("custom", VInt 1)] /\
  exists d',
    (create_job (fun _ => VNone) (fun _ => Return 0)
       "g" "pagerank" (Some false) None None None None (Some 7%nat)
       {[7%nat := [("store", VBool true); ("custom", VInt 1)]]}).2 !! 7%nat =
    Some d' /\
    dict_get d' "store" = Some (VBool false) /\
    dict_get d' "custom" = Some (VInt 1).
Proof.
  assert (Hl : ({[7%nat := [("store", VBool true); ("custom", VInt 1)]]} : heap)
                 !! 7%nat = Some [("store", VBool true); ("custom", VInt 1)])
    by reflexivity.
  split; [exact Hl|].
  destruct (create_job_arguments_override (fun _ => VNone) (fun _ => Return 0)
              "g" "pagerank" (Some false) None None None None 7%nat _ _ Hl)
    as (d' & Hd' & Hstore & _ & _ & _ & _ & Hother & _).
  exists d'. split; [exact Hd'|]. split; [exact Hstore|].
  rewrite Hother; [reflexivity|].
  apply (bool_decide_unpack _). vm_compute. exact I.
Defined.

Lemma create_job_repeat_keeps_options_witness :
  ({[7%nat := [("custom", VInt 1)]]} : heap) !! 7%nat = Some [("custom", VInt 1)] /\
  (create_job (fun _ => VNone) (fun _ => Return 0)
     "g2" "sssp" (Some false) (Some 5) None None None (Some 7%nat)
     (create_job (fun _ => VNone) (fun _ => Return 0)
        "g" "pagerank" (Some false) (Some 5) None None None (Some 7%nat)
        {[7%nat := [("custom", VInt 1)]]}).2).2 !! 7%nat =
  (create_job (fun _ => VNone) (fun _ => Return 0)
     "g" "pagerank" (Some false) (Some 5) None None None (Some 7%nat)
     {[7%nat := [("custom", VInt 1)]]}).2 !! 7%nat.
Proof.
  assert (Hl : ({[7%nat := [("custom", VInt 1)]]} : heap) !! 7%nat =
               Some [("custom", VInt 1)]) by reflexivity.
  split; [exact Hl|].
  exact (create_job_repeat_keeps_options (fun _ => VNone) (fun _ => Return 0)
           "g" "pagerank" "g2" "sssp" (Some false) (Some 5) None None None
           7%nat _ _ Hl).
Defined.

Lemma create_job_without_options_keeps_documents_witness :
  snapshot 1 ({[7%nat := [("custom", VInt 1)]]} : heap) (VDict 7%nat) =
  Some (JObject [("custom", JInt 1)]) /\
  snapshot 1
    (create_job (fun _ => VNone) (fun _ => Return 0)
       "g" "pagerank" (Some true) None None None None None
       {[7%nat := [("custom", VInt 1)]]}).2 (VDict 7%nat) =
  Some (JObject [("custom", JInt 1)]).
Proof.
  assert (Hs : snapshot 1 ({[7%nat := [("custom", VInt 1)]]} : heap) (VDict 7%nat) =
               Some (JObject [("custom", JInt 1)])) by reflexivity.
  split; [exact Hs|].
  exact (create_job_without_options_keeps_documents
           (fun _ => VNone) (fun _ => Return 0)
           "g" "pagerank" (Some true) None None None None _ 1%nat _ _ Hs).
Defined.

(** ** Headers of well-behaved callers *)

(** X7.  Caller headers whose keys are lower-case already, pairwise distinct
    and none of the two defaults come out as the two default pairs followed
    by the caller's items, in the caller's order. *)
Theorem normalize_headers_appends_new_keys (h : Headers) :
  is_dict h ->
  (forall k, k ∈ dict_keys h ->
             lower k = k /\ k <> "charset" /\ k <> "content-type") ->
  normalize_headers (Some h) =
  ("charset", "utf-8") :: ("content-type", "application/json") :: h.
Proof.
  intros Hd Hk. rewrite normalize_headers_unfold.
  change (("charset", "utf-8") :: ("content-type", "application/json") :: h)
    with (default_headers ++ h).
  apply headers_fold_fixed.
  - intros k Hin. apply Hk, Hin.
  - change (dict_keys default_headers) with ["charset"; "content-type"].
    cbn [app]. apply NoDup_cons. split.
    + intros [Heq|Hin]%elem_of_cons; [discriminate Heq|].
      destruct (Hk _ Hin) as (_ & Hc & _). congruence.
    + apply NoDup_cons. split; [|exact Hd].
      intros Hin. destruct (Hk _ Hin) as (_ & _ & Hc). congruence.
Qed.

Lemma normalize_headers_appends_new_keys_witness :
  is_dict [("x-arango-async", "store"); ("accept", "*/*")] /\
  normalize_headers (Some [("x-arango-async", "store"); ("accept", "*/*")]) =
  [("charset", "utf-8"); ("content-type", "application/json");
   ("x-arango-async", "store"); ("accept", "*/*")].
Proof.
  assert (Hd : is_dict [("x-arango-async", "store"); ("accept", "*/*")]).
  { apply (bool_decide_unpack _). vm_compute. exact I. }
  split; [exact Hd|].
  apply (normalize_headers_appends_new_keys _ Hd).
  intros k Hk. apply (bool_decide_unpack _).
  change (dict_keys [("x-arango-async", "store"); ("accept", "*/*")])
    with ["x-arango-async"; "accept"] in Hk.
  apply elem_of_cons in Hk as [->|Hk]; [vm_compute; exact I|].
  apply list_elem_of_singleton in Hk as ->. vm_compute. exact I.
Defined.

(** X8.  When no two caller keys differ only in case, every caller item is found
    under its lower-cased key, wherever it stands in the caller's mapping. *)
Theorem normalize_headers_lookup_any_case (h : Headers) (k v : string) :
  NoDup (lower <$> dict_keys h) ->
  (k, v) ∈ h ->
  dict_get (normalize_headers (Some h)) (lower k) = Some v.
Proof.
  intros Hnd Hin. apply list_elem_of_split in Hin as (h1 & h2 & ->).
  rewrite normalize_headers_unfold. apply headers_fold_last.
  intros k' v' Hin' Heq.
  unfold dict_keys in Hnd. rewrite fmap_app, fmap_cons, fmap_app, fmap_cons in Hnd.
  cbn [fst] in Hnd.
  apply NoDup_app in Hnd as (_ & _ & Hnd). apply NoDup_cons in Hnd as [Hk _].
  apply Hk. rewrite <- Heq. apply list_elem_of_fmap. exists k'. split; [reflexivity|].
  apply list_elem_of_fmap. exists (k', v'). split; [reflexivity|exact Hin'].
Qed.

Lemma normalize_headers_lookup_any_case_witness :
  NoDup (lower <$> dict_keys [("Accept", "*/*"); ("Content-Type", "text/plain")]) /\
  (("Content-Type", "text/plain") : string * string)
    ∈ [("Accept", "*/*"); ("Content-Type", "text/plain")] /\
  dict_get (normalize_headers
              (Some [("Accept", "*/*"); ("Content-Type", "text/plain")]))
           "content-type" = Some "text/plain".
Proof.
  assert (Hnd : NoDup (lower <$> dict_keys [("Accept", "*/*");
                                            ("Content-Type", "text/plain")])).
  { apply (bool_decide_unpack _). vm_compute. exact I. }
  assert (Hin : (("Content-Type", "text/plain") : string * string)
                  ∈ [("Accept", "*/*"); ("Content-Type", "text/plain")]).
  { apply (bool_decide_unpack _). vm_compute. exact I. }
  split; [exact Hnd|]. split; [exact Hin|].
  exact (normalize_headers_lookup_any_case _ "Content-Type" "text/plain" Hnd Hin).
Defined.

(** ** Endpoints and handlers of the Pregel group *)

Lemma string_app_inj_l (p s1 s2 : string) :
  (p ++ s1)%string = (p ++ s2)%string -> s1 = s2.
Proof.
  induction p as [|c p IH]; cbn [String.append]; [auto|].
  intros [= H]. apply IH, H.
Qed.

Section PregelMoreFacts.

Variable resp_body : Response -> value.
Variable format_pregel_job_data : value -> value.
Variable py_int : value -> outcome Z.

(** X9.  [job] and [delete_job] address a job by the decimal form of its id:
    for one id they share the endpoint and differ in the method, and two
    ids give the same endpoint only when they are equal. *)
Theorem pregel_job_endpoints (j1 j2 : Z) :
  let get := (job resp_body format_pregel_job_data j1).1 in
  let del := (delete_job j1).1 in
  req_endpoint get = req_endpoint del /\
  req_method get <> req_method del /\
  (req_endpoint get = req_endpoint (job resp_body format_pregel_job_data j2).1 <->
   j1 = j2) /\
  (req_endpoint del = req_endpoint (delete_job j2).1 <-> j1 = j2).
Proof.
  intros get del. subst get del. cbn [job delete_job fst Request_of Request_init
                                     req_endpoint req_method].
  split; [reflexivity|]. split; [discriminate|].
  split; (split; [|intros ->; reflexivity]);
    intros H%string_app_inj_l; apply (inj pretty), H.
Qed.

Lemma create_job_handler g a st mg tc am rf ap (h : heap) resp :
  (create_job resp_body py_int g a st mg tc am rf ap h).1.2 resp =
  if is_success resp
  then py_int (resp_body resp)
  else Raise (PregelJobCreateError resp
                (Request_of "post" "/_api/control_pregel"
                            (VDict (fresh (dom h))))).
Proof.
  unfold create_job, mbind, St_bind, mret, St_ret, new_dict. cbv zeta.
  destruct ap as [l|]; cbv beta iota;
  repeat match goal with
  | |- context [if_not_none ?o ?f ?h] => destruct (if_not_none o f h) as [[] ?]
  | |- context [truthy ?l ?h] => destruct (truthy l h) as [[] ?]
  | |- context [setitem ?l ?k ?v ?h] => destruct (setitem l k v h) as [[] ?]
  end; reflexivity.
Qed.

(** X10.  On a response that is no success the handlers of [create_job] and
    [delete_job] return nothing: each raises the error of its own
    operation, carrying the response it was given and the very request the
    operation built, whatever the arguments and the store.  On a success
    [delete_job] answers [True] and [create_job] answers what [int] makes
    of the body. *)
Theorem pregel_handlers_carry_request
    (g a : string) (st : option bool) (mg tc : option Z) (am : option bool)
    (rf : option string) (ap : option loc) (h : heap) (job_id : Z)
    (resp : Response) :
  let created := (create_job resp_body py_int g a st mg tc am rf ap h).1 in
  let deleted := delete_job job_id in
  created.2 resp =
    (if is_success resp
     then py_int (resp_body resp)
     else Raise (PregelJobCreateError resp created.1)) /\
  deleted.2 resp =
    (if is_success resp
     then Return true
     else Raise (PregelJobDeleteError resp deleted.1)) /\
  req_method created.1 = "post" /\
  req_method deleted.1 = "delete".
Proof.
  intros created deleted. subst created deleted.
  rewrite create_job_handler, create_job_request.
  repeat split.
Qed.

End PregelMoreFacts.
